(** * Tic-tac-toe finite state machine: a shallow embedding of [main.ts]

    The development follows the source file from top to bottom: the data
    model (players, squares, the 3x3 board, the four machine states), the
    board operations ([newBoard], [getPosition], [isEmpty], [isBoardFull],
    [updateBoard], [printBoard]), the three line scans and [evaluate], the
    input function [getSelection], and finally
    [FiniteStateMachine.transition].

    JavaScript values are modelled as follows.
    - [null] in a square is [None]; a claimed square is [Some X] / [Some O].
    - A board is a JavaScript array object.  [updateBoard] writes into the
      array it is handed, so boards live in a store indexed by references
      ([loc]) and the machine state carries references.  The three row
      arrays of a board are created together with it by [newBoard] and are
      never stored anywhere else, so a board and its rows are one store
      cell.
      A reference is read with the total lookup [!!!]: every reference the
      program holds was returned by [newBoard], so it is in the store.
    - The result of [parseInt] is a JavaScript number: [NaN] or an integer.
    - The lines typed by the players are a list consumed by the readline
      interface; a promise that is never settled, a question that is still
      waiting for its line, a thrown [TypeError] and [process.exit] are
      explicit outcomes of a call of [transition]. *)

From stdpp Require Import base option list strings gmap pretty.
From Stdlib Require Import ZArith Lia.

Open Scope Z_scope.

(** ** Data model *)

(** [type Player = "X" | "O"] (also [Claimed] and [Winner]). *)
Inductive Player := X | O.

#[global] Instance Player_eq_dec : EqDecision Player.
Proof. solve_decision. Defined.

(** [type Square = Empty | Claimed], with [Empty = null]. *)
Definition Square := option Player.

(** The index type [0 | 1 | 2] of rows and columns. *)
Inductive Coord := C0 | C1 | C2.

#[global] Instance Coord_eq_dec : EqDecision Coord.
Proof. solve_decision. Defined.

(** The indices [0, 1, 2] in the order of [for (let i = 0; i < 3; i++)]. *)
Definition coords : list Coord := [C0; C1; C2].

(** [[Square, Square, Square]] and the 3x3 tuple of rows. *)
Definition Row : Type := Square * Square * Square.
Definition Board : Type := Row * Row * Row.

Definition get3 {A} (t : A * A * A) (i : Coord) : A :=
  match t, i with
  | (a, _, _), C0 => a
  | (_, b, _), C1 => b
  | (_, _, c), C2 => c
  end.

Definition set3 {A} (t : A * A * A) (i : Coord) (v : A) : A * A * A :=
  match t, i with
  | (_, b, c), C0 => (v, b, c)
  | (a, _, c), C1 => (a, v, c)
  | (a, b, _), C2 => (a, b, v)
  end.

Definition list3 {A} (t : A * A * A) : list A :=
  let '(a, b, c) := t in [a; b; c].

(** [board[y][x]] *)
Definition cell (board : Board) (y x : Coord) : Square :=
  get3 (get3 board y) x.

(** [board[y][x] = v] *)
Definition setCell (board : Board) (y x : Coord) (v : Square) : Board :=
  set3 board y (set3 (get3 board y) x v).

(** [board.flat()] *)
Definition flat (board : Board) : list Square :=
  concat (list3 <$> list3 board).

(** JavaScript numbers as they can come out of [parseInt]: [NaN] or an
    integer (an infinite result compares with 1 and 9 like a large
    integer and is not distinguished). *)
Inductive JSNumber := NaN | Int (z : Z).

(** [a < b] and [a > b] on numbers: every comparison with [NaN] is false. *)
Definition js_lt (a : JSNumber) (b : Z) : bool :=
  match a with NaN => false | Int z => bool_decide (z < b) end.
Definition js_gt (a : JSNumber) (b : Z) : bool :=
  match a with NaN => false | Int z => bool_decide (z > b) end.

(** String conversion of a number inside a template literal. *)
Definition js_show (a : JSNumber) : string :=
  match a with NaN => "NaN" | Int z => pretty z end.

Definition showPlayer (p : Player) : string :=
  match p with X => "X" | O => "O" end.

(** References to board objects, and the store they point into. *)
Definition loc := positive.
Abbreviation Store := (gmap loc Board).

(** [type TicTacToeState]: the tagged union of the four states.  [won] is
    [Player | Draw] with [Draw = undefined], here [None]. *)
Inductive TicTacToeState :=
  | Initializing
  | Placing (player : Player) (on : loc)
  | Evaluating (board : loc) (after : Player)
  | Winner (won : option Player) (on : loc).

(** Exceptions and abrupt completion. *)
Inductive Exn := TypeError.
Inductive Completion (A : Type) :=
  | Normal (a : A)
  | Throw (e : Exn).
Arguments Normal {A} a.
Arguments Throw {A} e.

(** ** Board operations *)

(** [newBoard()]: the value of the array literal. *)
Definition emptyBoard : Board :=
  ((None, None, None),
   (None, None, None),
   (None, None, None)).

#[global] Instance Board_inhabited : Inhabited Board := populate emptyBoard.

(** [newBoard()] allocates a fresh board object and returns its reference. *)
Definition newBoard (h : Store) : loc * Store :=
  let l := fresh (dom h) in (l, <[l := emptyBoard]> h).

(** [{ y, x }] *)
Record Position := mkPosition { y : Coord; x : Coord }.

(** [getPosition(from)]: the [switch]; a number matching no [case] falls
    off the end and the function returns [undefined], here [None]. *)
Definition getPosition (from : JSNumber) : option Position :=
  match from with
  | Int 1 => Some {| y := C0; x := C0 |}
  | Int 2 => Some {| y := C0; x := C1 |}
  | Int 3 => Some {| y := C0; x := C2 |}
  | Int 4 => Some {| y := C1; x := C0 |}
  | Int 5 => Some {| y := C1; x := C1 |}
  | Int 6 => Some {| y := C1; x := C2 |}
  | Int 7 => Some {| y := C2; x := C0 |}
  | Int 8 => Some {| y := C2; x := C1 |}
  | Int 9 => Some {| y := C2; x := C2 |}
  | _ => None
  end.

(** [isEmpty(board, at)]: reading [point.y] of [undefined] throws. *)
Definition isEmpty (board : Board) (at_ : JSNumber) : Completion bool :=
  match getPosition at_ with
  | None => Throw TypeError
  | Some point => Normal (bool_decide (cell board (y point) (x point) = None))
  end.

(** [isBoardFull(board)]: the flag is cleared by every [null] square met by
    the two nested [forEach]. *)
Definition isBoardFull (board : Board) : bool :=
  fold_left
    (fun full row =>
       fold_left
         (fun full col => if bool_decide (col = None) then false else full)
         (list3 row) full)
    (list3 board) true.

(** The value returned by [updateBoard]: a board or [{ error }]. *)
Inductive UpdateResult :=
  | Updated (updated : loc)
  | UpdateError (error : string).

Definition occupiedMessage (at_ : JSNumber) : string :=
  "Can't update non-empty space, " +:+ js_show at_ +:+ " is already occupied.".

(** [updateBoard(symbol, at, on)].  [const updated = on] copies the
    reference, so the assignment writes into the caller's board. *)
Definition updateBoard (symbol : Player) (at_ : JSNumber) (on : loc) (h : Store)
  : Completion (UpdateResult * Store) :=
  match isEmpty (h !!! on) at_ with
  | Throw e => Throw e
  | Normal false => Normal (UpdateError (occupiedMessage at_), h)
  | Normal true =>
      match getPosition at_ with
      | None => Throw TypeError
      | Some point =>
          let updated := on in
          Normal (Updated updated,
                  <[updated := setCell (h !!! updated) (y point) (x point) (Some symbol)]> h)
      end
  end.

(** ** The line scans *)

(** A [for] loop whose body may [return]: the first returned value wins,
    and [after] is the value of the statement following the loop. *)
Fixpoint forReturn {A R} (body : A -> option R) (range : list A) (after : R) : R :=
  match range with
  | [] => after
  | i :: range' =>
      match body i with
      | Some r => r
      | None => forReturn body range' after
      end
  end.

(** The condition [col1 == col2 && col2 == col3 && col1 != null]. *)
Definition threeInARow (col1 col2 col3 : Square) : bool :=
  bool_decide (col1 = col2) && bool_decide (col2 = col3)
  && negb (bool_decide (col1 = None)).

(** [hasWinnerHorizontal(board)] *)
Definition hasWinnerHorizontal (board : Board) : option Player :=
  forReturn
    (fun i =>
       let col1 := cell board i C0 in
       let col2 := cell board i C1 in
       let col3 := cell board i C2 in
       if threeInARow col1 col2 col3 then Some col1 else None)
    coords None.

(** [hasWinnerVertical(board)] *)
Definition hasWinnerVertical (board : Board) : option Player :=
  forReturn
    (fun i =>
       let col1 := cell board C0 i in
       let col2 := cell board C1 i in
       let col3 := cell board C2 i in
       if threeInARow col1 col2 col3 then Some col1 else None)
    coords None.

(** [hasWinnerDiagonal(board)].  Both conditions test [topL] against
    [null]; the second one returns [topR]. *)
Definition hasWinnerDiagonal (board : Board) : option Player :=
  let topL := cell board C0 C0 in
  let topR := cell board C0 C2 in
  let origin := cell board C1 C1 in
  let botR := cell board C2 C2 in
  let botL := cell board C2 C0 in
  if bool_decide (topL = origin) && bool_decide (origin = botR)
     && negb (bool_decide (topL = None)) then topL
  else if bool_decide (topR = origin) && bool_decide (origin = botL)
          && negb (bool_decide (topL = None)) then topR
  else None.

(** ** Evaluation *)

(** [after == "X" ? "O" : "X"] *)
Definition opponent (after : Player) : Player :=
  if bool_decide (after = X) then O else X.

(** Truthiness of a [Winner | NoWinner] value: a symbol is truthy, [null]
    is falsy. *)
Definition truthy (w : option Player) : bool :=
  match w with Some _ => true | None => false end.

(** [evaluate(board, after)]: the three scans read the board object; the
    returned state carries the same reference. *)
Definition evaluate (h : Store) (board : loc) (after : Player) : TicTacToeState :=
  let vert := hasWinnerVertical (h !!! board) in
  let hori := hasWinnerHorizontal (h !!! board) in
  let diag := hasWinnerDiagonal (h !!! board) in
  if truthy vert then Winner vert board
  else if truthy hori then Winner hori board
  else if truthy diag then Winner diag board
  else if isBoardFull (h !!! board) then Winner None board
  else Placing (opponent after) board.

(** ** Console and input *)

(** What the program writes: the query of [rl.question] and the three
    [console] channels it uses. *)
Inductive Output :=
  | Question (query : string)
  | ConsoleError (msg : string)
  | ConsoleInfo (msg : string)
  | ConsoleLog (msg : string).

Definition nl : string := String (Ascii.ascii_of_nat 10) EmptyString.

(** [printBoard(board)]: the text handed to [console.info]. *)
Definition displayBoard (board : Board) : string :=
  let flattened := flat board in
  let spacesNumbered :=
    imap (fun index space =>
            match space with
            | None => pretty (Z.of_nat index + 1)
            | Some p => showPlayer p
            end) flattened in
  let sp (k : nat) := default "undefined" (spacesNumbered !! k) in
  sp 0%nat +:+ " | " +:+ sp 1%nat +:+ " | " +:+ sp 2%nat +:+ " " +:+ nl
  +:+ "---------" +:+ nl
  +:+ sp 3%nat +:+ " | " +:+ sp 4%nat +:+ " | " +:+ sp 5%nat +:+ " " +:+ nl
  +:+ "---------" +:+ nl
  +:+ sp 6%nat +:+ " | " +:+ sp 7%nat +:+ " | " +:+ sp 8%nat +:+ " " +:+ nl.

Definition printBoard (board : Board) : list Output :=
  [ConsoleInfo (displayBoard board)].

(** A line delivered by the readline interface, as far as the program
    looks at it: the empty string (falsy), or a non-empty string together
    with the number [parseInt] makes of it. *)
Inductive Input :=
  | Blank
  | Typed (parsed : JSNumber).

(** A promise either resolves with a value or is never settled. *)
Inductive Promise (A : Type) :=
  | Resolves (a : A)
  | Pending.
Arguments Resolves {A} a.
Arguments Pending {A}.

Definition rangeMessage : string :=
  "Selection must be an integer in range 1 - 9".

(** The callback [getSelection] hands to [rl.question].  An empty line
    does nothing; a number outside 1..9 throws inside the [try] and the
    [catch] only writes the message; otherwise [resolve] is called.  The
    callback runs once per question. *)
Definition onAnswer (input : Input) : list Output * Promise JSNumber :=
  match input with
  | Blank => ([], Pending)
  | Typed parsed =>
      if js_lt parsed 1 || js_gt parsed 9
      then ([ConsoleError rangeMessage], Pending)
      else ([], Resolves parsed)
  end.

Definition selectQuery (player : Player) : string :=
  "Player " +:+ showPlayer player +:+ " select your space, enter the number: ".

(** [getSelection(player)]: asks the question; [input] is the line that
    answers it, if one arrives. *)
Definition getSelection (player : Player) (input : option Input)
  : list Output * Promise JSNumber :=
  match input with
  | None => ([Question (selectQuery player)], Pending)
  | Some line =>
      let '(out, p) := onAnswer line in (Question (selectQuery player) :: out, p)
  end.

(** ** The state machine *)

(** The private [state] field of [FiniteStateMachine], with the store of
    board objects and what has been written to the terminal so far. *)
Record Machine := mkMachine {
  state : TicTacToeState;
  heap : Store;
  console : list Output
}.

(** How one call of [transition()] ends on a given list of input lines. *)
Inductive Outcome :=
  | Returned (m : Machine) (rest : list Input)
      (** the promise of [transition] resolved; [rest] is still unread *)
  | AwaitingInput (m : Machine)
      (** a question is open and all lines have been read *)
  | NeverSettles (m : Machine) (unread : list Input)
      (** [await getSelection] waits for a promise nobody will resolve;
          no question is open, the lines in [unread] are not looked at *)
  | Rejected (e : Exn) (m : Machine) (rest : list Input)
      (** an exception escaped *)
  | Exited (code : Z) (m : Machine) (rest : list Input).
      (** [process.exit(code)] *)

(** [terminate(winner, on)] *)
Definition terminate (winner : option Player) (on : loc) (m : Machine)
    (rest : list Input) : Outcome :=
  let out := console m ++ printBoard (heap m !!! on) in
  if truthy winner then
    if bool_decide (winner = Some X)
    then Exited 0 (mkMachine (state m) (heap m)
                     (out ++ [ConsoleLog (nl +:+ "Player 1 wins!" +:+ nl)])) rest
    else Exited 0 (mkMachine (state m) (heap m)
                     (out ++ [ConsoleLog (nl +:+ "Player 2 wins!" +:+ nl)])) rest
  else Exited 0 (mkMachine (state m) (heap m)
                   (out ++ [ConsoleLog "Draw! Nobody wins"])) rest.

(** The [while (!selectionValid)] loop of the placing branch.  The machine
    state stays [Placing player on] until the assignment that precedes
    [return]. *)
Fixpoint pollSelection (player : Player) (on : loc) (h : Store)
    (out : list Output) (lines : list Input) : Outcome :=
  match lines with
  | [] =>
      let '(asked, _) := getSelection player None in
      AwaitingInput (mkMachine (Placing player on) h (out ++ asked))
  | input :: rest =>
      match getSelection player (Some input) with
      | (asked, Pending) =>
          NeverSettles (mkMachine (Placing player on) h (out ++ asked)) rest
      | (asked, Resolves at_) =>
          match updateBoard player at_ on h with
          | Throw e =>
              Rejected e (mkMachine (Placing player on) h (out ++ asked)) rest
          | Normal (UpdateError error, h') =>
              pollSelection player on h' (out ++ asked ++ [ConsoleError error]) rest
          | Normal (Updated update, h') =>
              Returned (mkMachine (Evaluating update player) h' (out ++ asked)) rest
          end
      end
  end.

(** [FiniteStateMachine.transition()].  The four [if] statements run in
    sequence: the first one assigns the placing state and does not return,
    so the second one sees it. *)
Definition transition (m : Machine) (lines : list Input) : Outcome :=
  let m1 :=
    match state m with
    | Initializing =>
        let '(b, h') := newBoard (heap m) in
        mkMachine (Placing X b) h' (console m)
    | _ => m
    end in
  match state m1 with
  | Placing player on =>
      pollSelection player on (heap m1)
        (console m1 ++ printBoard (heap m1 !!! on)) lines
  | Evaluating board after =>
      Returned (mkMachine (evaluate (heap m1) board after) (heap m1) (console m1)) lines
  | Winner won on => terminate won on m1 lines
  | Initializing => Returned m1 lines
  end.

(** [initializeGame()]: a machine in its initial state, nothing allocated
    and nothing printed. *)
Definition initializeGame : Machine := mkMachine Initializing ∅ [].

(** The driver [while (playing) await game.stateMachine.transition()]:
    the next call is made when the previous one returned.  [fuel] bounds
    the number of calls. *)
Fixpoint play (fuel : nat) (m : Machine) (lines : list Input) : Outcome :=
  match fuel with
  | 0%nat => Returned m lines
  | S fuel' =>
      match transition m lines with
      | Returned m' rest => play fuel' m' rest
      | outcome => outcome
      end
  end.

(** The lines typed when the players select these spaces in turn. *)
Definition selections (zs : list Z) : list Input := (fun z => Typed (Int z)) <$> zs.

(** The state a call or a run ends in. *)
Definition finalState (o : Outcome) : TicTacToeState :=
  match o with
  | Returned m _ | AwaitingInput m | NeverSettles m _
  | Rejected _ m _ | Exited _ m _ => state m
  end.

Definition exited (o : Outcome) : bool :=
  match o with Exited _ _ _ => true | _ => false end.

(** ** Vocabulary of the properties *)

(** The eight lanes of three squares: rows, columns, the main diagonal
    (0,0)-(1,1)-(2,2) and the anti-diagonal (0,2)-(1,1)-(2,0). *)
Inductive Lane :=
  | RowLane (i : Coord)
  | ColLane (i : Coord)
  | MainDiagonal
  | AntiDiagonal.

Definition laneCells (l : Lane) : list (Coord * Coord) :=
  match l with
  | RowLane i => [(i, C0); (i, C1); (i, C2)]
  | ColLane i => [(C0, i); (C1, i); (C2, i)]
  | MainDiagonal => [(C0, C0); (C1, C1); (C2, C2)]
  | AntiDiagonal => [(C0, C2); (C1, C1); (C2, C0)]
  end.

(** Lane [l] of [board] is completed by [s]: its three squares hold [s]. *)
Definition completed (board : Board) (l : Lane) (s : Player) : Prop :=
  Forall (fun p => cell board p.1 p.2 = Some s) (laneCells l).

#[global] Instance completed_dec board l s : Decision (completed board l s).
Proof. unfold completed. apply _. Defined.

(** No lane of the board is completed by anybody. *)
Definition noCompletedLane (board : Board) : Prop :=
  forall l s, ~ completed board l s.

(** The number of claimed squares. *)
Definition claimedCount (board : Board) : nat :=
  length (filter (fun sq : Square => is_Some sq) (flat board)).

(** The space at [at_] is claimed on [board]. *)
Definition occupied (board : Board) (at_ : JSNumber) : Prop :=
  exists point q, getPosition at_ = Some point
                  /\ cell board (y point) (x point) = Some q.

(** The three squares the loops read at index [i]. *)
Definition columnOf (board : Board) (i : Coord) : Square * Square * Square :=
  (cell board C0 i, cell board C1 i, cell board C2 i).
Definition rowOf (board : Board) (i : Coord) : Square * Square * Square :=
  (cell board i C0, cell board i C1, cell board i C2).

(** A checker for [noCompletedLane] on concrete boards. *)
Definition lanes : list Lane :=
  (RowLane <$> coords) ++ (ColLane <$> coords) ++ [MainDiagonal; AntiDiagonal].

Definition noCompletedLaneb (board : Board) : bool :=
  forallb (fun l => negb (bool_decide (completed board l X))
                    && negb (bool_decide (completed board l O))) lanes.

(** The numeric value of a coordinate. *)
Definition coordIndex (c : Coord) : Z :=
  match c with C0 => 0 | C1 => 1 | C2 => 2 end.

Definition positionPair (p : Position) : Z * Z :=
  (coordIndex (y p), coordIndex (x p)).

(** ** Vocabulary of the further properties *)

(** The constant [spacesNumbered] of [printBoard]: what is shown in the
    nine squares, in reading order. *)
Definition spacesNumbered (board : Board) : list string :=
  imap (fun index space =>
          match space with
          | None => pretty (Z.of_nat index + 1)
          | Some p => showPlayer p
          end) (flat board).

(** The number of squares that hold [s]. *)
Definition countOf (s : Player) (board : Board) : nat :=
  length (filter (fun sq : Square => sq = Some s) (flat board)).

(** The machine a call or a run ends with. *)
Definition finalMachine (o : Outcome) : Machine :=
  match o with
  | Returned m _ | AwaitingInput m | NeverSettles m _
  | Rejected _ m _ | Exited _ m _ => m
  end.

(** The lanes the guard of [hasWinnerDiagonal] lets through: every lane
    but the anti-diagonal, and the anti-diagonal when the top-left square
    is claimed. *)
Definition reportable (board : Board) (l : Lane) : Prop :=
  l <> AntiDiagonal \/ cell board C0 C0 <> None.

(** The text [terminate] logs for a result. *)
Definition announcement (won : option Player) : string :=
  match won with
  | Some X => nl +:+ "Player 1 wins!" +:+ nl
  | Some O => nl +:+ "Player 2 wins!" +:+ nl
  | None => "Draw! Nobody wins"
  end.

(** X moves first and the players alternate: where X is to move, or O has
    just moved, both hold equally many squares; where O is to move, or X
    has just moved, X holds one more. *)
Definition balanced (m : Machine) : Prop :=
  match state m with
  | Initializing => True
  | Placing player on =>
      countOf X (heap m !!! on) =
      (countOf O (heap m !!! on) + (if bool_decide (player = X) then 0 else 1))%nat
  | Evaluating board after =>
      countOf X (heap m !!! board) =
      (countOf O (heap m !!! board) + (if bool_decide (after = X) then 1 else 0))%nat
  | Winner _ on =>
      countOf X (heap m !!! on) = countOf O (heap m !!! on)
      \/ countOf X (heap m !!! on) = S (countOf O (heap m !!! on))
  end.



(** The board object a state refers to. *)
Definition boardOf (s : TicTacToeState) : option loc :=
  match s with
  | Initializing => None
  | Placing _ on | Evaluating on _ | Winner _ on => Some on
  end.

(** ** Boards used in the examples *)

(** The position after X:5, O:2, X:3, O:4, X:7: X holds the
    anti-diagonal and square 1 is empty. *)
Definition antiDiagonalWin : Board :=
  ((None,   Some O, Some X),
   (Some O, Some X, None),
   (Some X, None,   None)).

(** A malformed board: column 0 belongs to X, column 1 to O, row 2 is
    completed by nobody, and the board is full. *)
Definition twoColumns : Board :=
  ((Some X, Some O, Some X),
   (Some X, Some O, Some O),
   (Some X, Some O, Some X)).

(** After X:5, O:1. *)
Definition midGame : Board :=
  ((Some O, None,   None),
   (None,   Some X, None),
   (None,   None,   None)).

(** X:1,5,6,7,8 and O:2,3,4,9. *)
Definition drawnBoard : Board :=
  ((Some X, Some O, Some O),
   (Some O, Some X, Some X),
   (Some X, Some X, Some O)).

(** O holds space 5 and X is to move. *)
Definition centreTaken : Board :=
  ((None, None,   None),
   (None, Some O, None),
   (None, None,   None)).

(** A store with one board, still empty, that the caller holds as [1]. *)
Definition callerStore : Store := {[1%positive := emptyBoard]}.

(** ** Tuples and squares *)

Lemma get3_set3_eq {A} (t : A * A * A) i v : get3 (set3 t i v) i = v.
Proof. destruct t as [[a b] c], i; reflexivity. Qed.

Lemma get3_set3_ne {A} (t : A * A * A) i j v :
  i <> j -> get3 (set3 t i v) j = get3 t j.
Proof. intros H. destruct t as [[a b] c], i, j; try reflexivity; congruence. Qed.

Lemma cell_setCell_eq board y0 x0 v : cell (setCell board y0 x0 v) y0 x0 = v.
Proof. unfold cell, setCell. by rewrite !get3_set3_eq. Qed.

Lemma cell_setCell_ne board y0 x0 y1 x1 v :
  (y1, x1) <> (y0, x0) ->
  cell (setCell board y0 x0 v) y1 x1 = cell board y1 x1.
Proof.
  intros Hne. unfold cell, setCell.
  destruct (decide (y0 = y1)) as [->|Hy].
  - rewrite get3_set3_eq.
    destruct (decide (x0 = x1)) as [->|Hx]; [congruence|].
    by rewrite get3_set3_ne.
  - by rewrite get3_set3_ne.
Qed.

Lemma threeInARow_true a b c :
  threeInARow a b c = true <-> exists s, a = Some s /\ b = Some s /\ c = Some s.
Proof.
  unfold threeInARow. split.
  - destruct a as [[]|], b as [[]|], c as [[]|]; try done; eauto.
  - intros (s & -> & -> & ->). by destruct s.
Qed.

Lemma threeInARow_false a b c :
  threeInARow a b c = false <-> forall s, ~ (a = Some s /\ b = Some s /\ c = Some s).
Proof.
  rewrite <- not_true_iff_false, threeInARow_true. split.
  - intros H s Hs. apply H. eauto.
  - intros H (s & Hs). by apply (H s).
Qed.

(** ** Lanes *)

Lemma completed_row board i s :
  completed board (RowLane i) s <->
  cell board i C0 = Some s /\ cell board i C1 = Some s /\ cell board i C2 = Some s.
Proof.
  unfold completed. simpl. rewrite !Forall_cons, Forall_nil. simpl. tauto.
Qed.

Lemma completed_col board i s :
  completed board (ColLane i) s <->
  cell board C0 i = Some s /\ cell board C1 i = Some s /\ cell board C2 i = Some s.
Proof.
  unfold completed. simpl. rewrite !Forall_cons, Forall_nil. simpl. tauto.
Qed.

Lemma completed_main board s :
  completed board MainDiagonal s <->
  cell board C0 C0 = Some s /\ cell board C1 C1 = Some s /\ cell board C2 C2 = Some s.
Proof.
  unfold completed. simpl. rewrite !Forall_cons, Forall_nil. simpl. tauto.
Qed.

Lemma completed_anti board s :
  completed board AntiDiagonal s <->
  cell board C0 C2 = Some s /\ cell board C1 C1 = Some s /\ cell board C2 C0 = Some s.
Proof.
  unfold completed. simpl. rewrite !Forall_cons, Forall_nil. simpl. tauto.
Qed.

(** ** The scans find exactly the completed rows and columns *)

(** The body of the two loops returns the first square when the three
    squares are one symbol and lets the loop go on otherwise.  So the loop
    returns a symbol only from an index whose three squares hold it, and
    [null] only if no index has three equal symbols. *)
Lemma forReturn_scan_Some (line : Coord -> Square * Square * Square) range s :
  forReturn (fun i => let '(a, b, c) := line i in
                      if threeInARow a b c then Some a else None) range None = Some s ->
  exists i, i ∈ range /\ line i = (Some s, Some s, Some s).
Proof.
  induction range as [|i range IH]; simpl; [done|].
  destruct (line i) as [[a b] c] eqn:Hl.
  destruct (threeInARow a b c) eqn:E.
  - apply threeInARow_true in E as (s' & -> & -> & ->).
    intros [= ->]. exists i. split; [left|done].
  - intros H. destruct (IH H) as (j & Hj & Hline).
    exists j. split; [by right|done].
Qed.

Lemma forReturn_scan_None (line : Coord -> Square * Square * Square) range :
  forReturn (fun i => let '(a, b, c) := line i in
                      if threeInARow a b c then Some a else None) range None = None <->
  forall i s, i ∈ range -> line i <> (Some s, Some s, Some s).
Proof.
  induction range as [|i range IH]; simpl.
  - split; [|done]. intros _ i s Hi. by apply elem_of_nil in Hi.
  - destruct (line i) as [[a b] c] eqn:Hl.
    destruct (threeInARow a b c) eqn:E.
    + apply threeInARow_true in E as (s' & -> & -> & ->).
      split; [done|]. intros H. exfalso. apply (H i s'); [left|done].
    + rewrite IH. split.
      * intros H j s Hj. apply elem_of_cons in Hj as [->|Hj]; [|by apply H].
        rewrite Hl. intros [= -> -> ->].
        eapply threeInARow_false in E. apply E. eauto.
      * intros H j s Hj. apply H. by right.
Qed.

Lemma elem_of_coords i : i ∈ coords.
Proof. unfold coords. destruct i; set_solver. Qed.

Lemma hasWinnerVertical_Some board s :
  hasWinnerVertical board = Some s -> exists i, completed board (ColLane i) s.
Proof.
  intros H.
  apply (forReturn_scan_Some (columnOf board)) in H as (i & _ & [= H0 H1 H2]).
  exists i. by apply completed_col.
Qed.

Lemma hasWinnerVertical_None board :
  hasWinnerVertical board = None <-> forall i s, ~ completed board (ColLane i) s.
Proof.
  unfold hasWinnerVertical.
  rewrite (forReturn_scan_None (columnOf board) coords). unfold columnOf. split.
  - intros H i s (H0 & H1 & H2)%completed_col.
    apply (H i s (elem_of_coords i)). by rewrite H0, H1, H2.
  - intros H i s _ [= H0 H1 H2]. apply (H i s). by apply completed_col.
Qed.

Lemma hasWinnerHorizontal_Some board s :
  hasWinnerHorizontal board = Some s -> exists i, completed board (RowLane i) s.
Proof.
  intros H.
  apply (forReturn_scan_Some (rowOf board)) in H as (i & _ & [= H0 H1 H2]).
  exists i. by apply completed_row.
Qed.

Lemma hasWinnerHorizontal_None board :
  hasWinnerHorizontal board = None <-> forall i s, ~ completed board (RowLane i) s.
Proof.
  unfold hasWinnerHorizontal.
  rewrite (forReturn_scan_None (rowOf board) coords). unfold rowOf. split.
  - intros H i s (H0 & H1 & H2)%completed_row.
    apply (H i s (elem_of_coords i)). by rewrite H0, H1, H2.
  - intros H i s _ [= H0 H1 H2]. apply (H i s). by apply completed_row.
Qed.

(** ** The diagonal scan *)

Ltac case_squares board :=
  destruct (cell board C0 C0) as [[]|], (cell board C0 C2) as [[]|],
           (cell board C1 C1) as [[]|], (cell board C2 C0) as [[]|],
           (cell board C2 C2) as [[]|].

Lemma hasWinnerDiagonal_Some board s :
  hasWinnerDiagonal board = Some s ->
  completed board MainDiagonal s \/ completed board AntiDiagonal s.
Proof.
  rewrite completed_main, completed_anti. unfold hasWinnerDiagonal.
  case_squares board; simpl; intros [= <-]; auto.
Qed.

Lemma hasWinnerDiagonal_main board s :
  completed board MainDiagonal s -> hasWinnerDiagonal board = Some s.
Proof.
  rewrite completed_main. unfold hasWinnerDiagonal.
  intros (-> & -> & ->). by destruct s.
Qed.

(** The anti-diagonal is reported when the top-left square is claimed. *)
Lemma hasWinnerDiagonal_anti_guarded board s :
  completed board AntiDiagonal s -> cell board C0 C0 <> None ->
  hasWinnerDiagonal board = Some s.
Proof.
  rewrite completed_anti. unfold hasWinnerDiagonal.
  intros (-> & -> & ->) HtopL.
  destruct s, (cell board C0 C0) as [[]|], (cell board C2 C2) as [[]|]; done.
Qed.

(** With the top-left square empty neither condition holds, whatever the
    anti-diagonal contains. *)
Lemma hasWinnerDiagonal_topL_empty board :
  cell board C0 C0 = None -> hasWinnerDiagonal board = None.
Proof.
  unfold hasWinnerDiagonal. intros ->. simpl.
  by rewrite !andb_false_r.
Qed.

Lemma hasWinnerDiagonal_None board :
  (forall s, ~ completed board MainDiagonal s) ->
  (forall s, ~ completed board AntiDiagonal s) ->
  hasWinnerDiagonal board = None.
Proof.
  intros Hmain Hanti.
  destruct (hasWinnerDiagonal board) as [s|] eqn:E; [|done].
  apply hasWinnerDiagonal_Some in E as [H|H]; [by apply Hmain in H|by apply Hanti in H].
Qed.

(** ** Full boards *)

Lemma isBoardFull_forallb board :
  isBoardFull board = forallb (fun col => negb (bool_decide (col = None))) (flat board).
Proof.
  destruct board as [[[[a0 a1] a2] [[b0 b1] b2]] [[c0 c1] c2]].
  destruct a0, a1, a2, b0, b1, b2, c0, c1, c2; reflexivity.
Qed.

Lemma isBoardFull_cells board :
  isBoardFull board = true <-> forall y x, cell board y x <> None.
Proof.
  rewrite isBoardFull_forallb, forallb_forall.
  destruct board as [[[[a0 a1] a2] [[b0 b1] b2]] [[c0 c1] c2]].
  unfold flat. simpl. split.
  - intros H y x. specialize (H (cell (a0, a1, a2, (b0, b1, b2), (c0, c1, c2)) y x)).
    rewrite negb_true_iff, bool_decide_eq_false in H. apply H.
    destruct y, x; simpl; tauto.
  - intros H sq Hin. rewrite negb_true_iff, bool_decide_eq_false.
    repeat (destruct Hin as [<-|Hin]);
      [ apply (H C0 C0) | apply (H C0 C1) | apply (H C0 C2)
      | apply (H C1 C0) | apply (H C1 C1) | apply (H C1 C2)
      | apply (H C2 C0) | apply (H C2 C1) | apply (H C2 C2) | destruct Hin ].
Qed.

Lemma claimedCount_full board :
  isBoardFull board = true <-> claimedCount board = 9%nat.
Proof.
  rewrite isBoardFull_forallb. unfold claimedCount.
  destruct board as [[[[a0 a1] a2] [[b0 b1] b2]] [[c0 c1] c2]].
  destruct a0, a1, a2, b0, b1, b2, c0, c1, c2; vm_compute; split; congruence.
Qed.

Lemma claimedCount_le board : (claimedCount board <= 9)%nat.
Proof.
  unfold claimedCount.
  etransitivity; [apply length_filter|].
  destruct board as [[[[a0 a1] a2] [[b0 b1] b2]] [[c0 c1] c2]]. reflexivity.
Qed.

(** ** Evaluation *)

Lemma noCompletedLane_scans board :
  noCompletedLane board ->
  hasWinnerVertical board = None /\ hasWinnerHorizontal board = None
  /\ hasWinnerDiagonal board = None.
Proof.
  intros Hno. split; [|split].
  - apply hasWinnerVertical_None. intros i s. apply Hno.
  - apply hasWinnerHorizontal_None. intros i s. apply Hno.
  - apply hasWinnerDiagonal_None; intros s; apply Hno.
Qed.

Lemma evaluate_no_scan_result h board after :
  hasWinnerVertical (h !!! board) = None ->
  hasWinnerHorizontal (h !!! board) = None ->
  hasWinnerDiagonal (h !!! board) = None ->
  evaluate h board after =
    if isBoardFull (h !!! board) then Winner None board
    else Placing (opponent after) board.
Proof. unfold evaluate. by intros -> -> ->. Qed.

(** A reported winner owns a completed lane. *)
Lemma evaluate_Winner_sound h board after s :
  evaluate h board after = Winner (Some s) board ->
  exists l, completed (h !!! board) l s.
Proof.
  unfold evaluate.
  destruct (hasWinnerVertical (h !!! board)) as [v|] eqn:Ev; simpl.
  { intros [= ->]. apply hasWinnerVertical_Some in Ev as [i Hi]. eauto. }
  destruct (hasWinnerHorizontal (h !!! board)) as [w|] eqn:Eh; simpl.
  { intros [= ->]. apply hasWinnerHorizontal_Some in Eh as [i Hi]. eauto. }
  destruct (hasWinnerDiagonal (h !!! board)) as [d|] eqn:Ed; simpl.
  { intros [= ->]. apply hasWinnerDiagonal_Some in Ed as [Hd|Hd]; eauto. }
  by destruct (isBoardFull (h !!! board)).
Qed.

(** A completed row, column or main diagonal always ends the game with a
    winner; so does a completed anti-diagonal when the top-left square is
    claimed. *)
Lemma evaluate_reports_lane h board after l s :
  completed (h !!! board) l s ->
  l <> AntiDiagonal \/ cell (h !!! board) C0 C0 <> None ->
  exists s', evaluate h board after = Winner (Some s') board.
Proof.
  intros Hl Hguard. unfold evaluate.
  destruct (hasWinnerVertical (h !!! board)) as [v|] eqn:Ev; simpl; [eauto|].
  destruct (hasWinnerHorizontal (h !!! board)) as [w|] eqn:Eh; simpl; [eauto|].
  destruct (hasWinnerDiagonal (h !!! board)) as [d|] eqn:Ed; simpl; [eauto|].
  exfalso. destruct l as [i|i| |].
  - by eapply hasWinnerHorizontal_None in Eh.
  - by eapply hasWinnerVertical_None in Ev.
  - apply hasWinnerDiagonal_main in Hl. congruence.
  - destruct Hguard as [?|HtopL]; [done|].
    apply hasWinnerDiagonal_anti_guarded in Hl; [congruence|done].
Qed.

(** With the top-left square empty and no completed row or column nobody is
    reported as winner, whatever the anti-diagonal holds. *)
Lemma evaluate_topL_empty h board after :
  cell (h !!! board) C0 C0 = None ->
  hasWinnerVertical (h !!! board) = None ->
  hasWinnerHorizontal (h !!! board) = None ->
  evaluate h board after = Placing (opponent after) board.
Proof.
  intros HtopL Hv Hh.
  rewrite evaluate_no_scan_result by auto using hasWinnerDiagonal_topL_empty.
  destruct (isBoardFull (h !!! board)) eqn:Hfull; [|done].
  by destruct (proj1 (isBoardFull_cells _) Hfull C0 C0).
Qed.

(** C1: a board whose anti-diagonal is completely claimed by X while cell
    (0,0) is empty is not reported as a win: [hasWinnerDiagonal] returns no
    winner and [evaluate] hands the turn to O. *)
Theorem evaluate_misses_anti_diagonal :
  completed antiDiagonalWin AntiDiagonal X
  /\ cell antiDiagonalWin C0 C0 = None
  /\ hasWinnerDiagonal antiDiagonalWin = None
  /\ evaluate {[1%positive := antiDiagonalWin]} 1%positive X = Placing O 1%positive.
Proof.
  split; [by apply completed_anti|]. split; [done|]. split; [done|].
  apply evaluate_topL_empty; done.
Qed.

(** C5: [evaluate] composes its result in the order vertical, horizontal,
    diagonal, draw: a vertical result is returned whatever the other scans
    say, a horizontal one only without a vertical one, a diagonal one only
    without the other two; the draw is looked at only when the three scans
    return nothing and is reported only on a full board, and a draw is never
    reported otherwise. *)
Theorem evaluate_precedence h board after :
  (forall s, hasWinnerVertical (h !!! board) = Some s ->
             evaluate h board after = Winner (Some s) board)
  /\ (forall s, hasWinnerVertical (h !!! board) = None ->
                hasWinnerHorizontal (h !!! board) = Some s ->
                evaluate h board after = Winner (Some s) board)
  /\ (forall s, hasWinnerVertical (h !!! board) = None ->
                hasWinnerHorizontal (h !!! board) = None ->
                hasWinnerDiagonal (h !!! board) = Some s ->
                evaluate h board after = Winner (Some s) board)
  /\ (hasWinnerVertical (h !!! board) = None ->
      hasWinnerHorizontal (h !!! board) = None ->
      hasWinnerDiagonal (h !!! board) = None ->
      isBoardFull (h !!! board) = true ->
      evaluate h board after = Winner None board)
  /\ (hasWinnerVertical (h !!! board) = None ->
      hasWinnerHorizontal (h !!! board) = None ->
      hasWinnerDiagonal (h !!! board) = None ->
      isBoardFull (h !!! board) = false ->
      evaluate h board after = Placing (opponent after) board)
  /\ (evaluate h board after = Winner None board ->
      hasWinnerVertical (h !!! board) = None
      /\ hasWinnerHorizontal (h !!! board) = None
      /\ hasWinnerDiagonal (h !!! board) = None
      /\ isBoardFull (h !!! board) = true).
Proof.
  unfold evaluate. repeat split.
  - by intros s ->.
  - by intros s -> ->.
  - by intros s -> -> ->.
  - by intros -> -> -> ->.
  - by intros -> -> -> ->.
  - by destruct (hasWinnerVertical (h !!! board)).
  - by destruct (hasWinnerVertical (h !!! board)),
         (hasWinnerHorizontal (h !!! board)).
  - by destruct (hasWinnerVertical (h !!! board)),
         (hasWinnerHorizontal (h !!! board)), (hasWinnerDiagonal (h !!! board)).
  - by destruct (hasWinnerVertical (h !!! board)),
         (hasWinnerHorizontal (h !!! board)), (hasWinnerDiagonal (h !!! board)),
         (isBoardFull (h !!! board)).
Qed.

(** On [twoColumns] the vertical scan finds X in column 0, and X is the
    result although column 1 belongs to O and the board is full. *)
Lemma evaluate_precedence_witness :
  hasWinnerVertical twoColumns = Some X
  /\ isBoardFull twoColumns = true
  /\ evaluate {[2%positive := twoColumns]} 2%positive O = Winner (Some X) 2%positive.
Proof.
  split; [reflexivity|]. split; [reflexivity|].
  apply (proj1 (evaluate_precedence {[2%positive := twoColumns]} 2%positive O) X).
  reflexivity.
Defined.

Lemma elem_of_lanes l : In l lanes.
Proof. destruct l as [[]|[]| |]; simpl; tauto. Qed.

Lemma noCompletedLaneb_true board :
  noCompletedLaneb board = true -> noCompletedLane board.
Proof.
  unfold noCompletedLaneb. rewrite forallb_forall. intros H l s Hl.
  specialize (H l (elem_of_lanes l)).
  apply andb_true_iff in H as [HX HO].
  rewrite negb_true_iff, bool_decide_eq_false in HX, HO.
  by destruct s.
Qed.

(** C6: on a board with fewer than 9 claimed squares and no completed
    lane the three scans report no winner, and [evaluate] yields the
    placing state of the mover's opponent (O after X, X after O) on the
    very board that was evaluated. *)
Theorem evaluate_passes_turn h board after :
  (claimedCount (h !!! board) < 9)%nat ->
  noCompletedLane (h !!! board) ->
  hasWinnerVertical (h !!! board) = None
  /\ hasWinnerHorizontal (h !!! board) = None
  /\ hasWinnerDiagonal (h !!! board) = None
  /\ evaluate h board after = Placing (opponent after) board
  /\ opponent X = O /\ opponent O = X.
Proof.
  intros Hcount Hno.
  destruct (noCompletedLane_scans _ Hno) as (Hv & Hh & Hd).
  repeat split; try done.
  rewrite evaluate_no_scan_result by done.
  destruct (isBoardFull (h !!! board)) eqn:Hfull; [|done].
  apply claimedCount_full in Hfull. lia.
Qed.

(** After O's move on [midGame] it is X's turn. *)
Lemma evaluate_passes_turn_witness :
  evaluate {[1%positive := midGame]} 1%positive O = Placing X 1%positive.
Proof.
  apply (evaluate_passes_turn {[1%positive := midGame]} 1%positive O).
  - vm_compute. lia.
  - apply noCompletedLaneb_true. reflexivity.
Defined.

(** C7: on a full board with no completed lane [evaluate] returns the
    terminal state with no winner (the draw) carrying that board, and
    reports no player as winner. *)
Theorem evaluate_draw h board after :
  claimedCount (h !!! board) = 9%nat ->
  noCompletedLane (h !!! board) ->
  isBoardFull (h !!! board) = true
  /\ evaluate h board after = Winner None board
  /\ (forall s, evaluate h board after <> Winner (Some s) board).
Proof.
  intros Hcount Hno.
  destruct (noCompletedLane_scans _ Hno) as (Hv & Hh & Hd).
  apply claimedCount_full in Hcount.
  rewrite evaluate_no_scan_result by done. rewrite Hcount. done.
Qed.

(** [drawnBoard] is a draw. *)
Lemma evaluate_draw_witness :
  evaluate {[1%positive := drawnBoard]} 1%positive X = Winner None 1%positive.
Proof.
  apply (evaluate_draw {[1%positive := drawnBoard]} 1%positive X).
  - reflexivity.
  - apply noCompletedLaneb_true. reflexivity.
Defined.

(** C8: [getPosition] maps the nine spaces to the (row, column) pairs of
    the table 1->(0,0) 2->(0,1) 3->(0,2) 4->(1,0) 5->(1,1) 6->(1,2)
    7->(2,0) 8->(2,1) 9->(2,2). *)
Theorem getPosition_table :
  positionPair <$> getPosition (Int 1) = Some (0, 0)
  /\ positionPair <$> getPosition (Int 2) = Some (0, 1)
  /\ positionPair <$> getPosition (Int 3) = Some (0, 2)
  /\ positionPair <$> getPosition (Int 4) = Some (1, 0)
  /\ positionPair <$> getPosition (Int 5) = Some (1, 1)
  /\ positionPair <$> getPosition (Int 6) = Some (1, 2)
  /\ positionPair <$> getPosition (Int 7) = Some (2, 0)
  /\ positionPair <$> getPosition (Int 8) = Some (2, 1)
  /\ positionPair <$> getPosition (Int 9) = Some (2, 2).
Proof. repeat split. Qed.

(** Exactly the integers 1..9 have a position. *)
Lemma getPosition_Some_range from :
  is_Some (getPosition from) <-> exists z, from = Int z /\ 1 <= z <= 9.
Proof.
  split.
  - intros [p Hp]. destruct from as [|z]; [done|]. exists z. split; [done|].
    destruct z as [|q|q]; try done.
    do 4 (destruct q as [q|q|]; try done); lia.
  - intros (z & -> & Hz).
    assert (z = 1 \/ z = 2 \/ z = 3 \/ z = 4 \/ z = 5 \/ z = 6 \/ z = 7
            \/ z = 8 \/ z = 9) as Hcases by lia.
    destruct Hcases as [->|[->|[->|[->|[->|[->|[->|[->| ->]]]]]]]]; simpl; eauto.
Qed.

(** C10: [evaluate] returns a winner state or a placing state, never the
    initial or the evaluating state; a call of [transition] in the
    evaluating state reads no input and returns with that state. *)
Theorem evaluate_leaves_evaluating h board after out lines :
  ((exists won, evaluate h board after = Winner won board)
   \/ (exists player, evaluate h board after = Placing player board))
  /\ evaluate h board after <> Initializing
  /\ (forall b a, evaluate h board after <> Evaluating b a)
  /\ transition (mkMachine (Evaluating board after) h out) lines
     = Returned (mkMachine (evaluate h board after) h out) lines.
Proof.
  assert ((exists won, evaluate h board after = Winner won board)
          \/ (exists player, evaluate h board after = Placing player board)) as H.
  { unfold evaluate.
    destruct (truthy (hasWinnerVertical (h !!! board))); [eauto|].
    destruct (truthy (hasWinnerHorizontal (h !!! board))); [eauto|].
    destruct (truthy (hasWinnerDiagonal (h !!! board))); [eauto|].
    destruct (isBoardFull (h !!! board)); eauto. }
  split; [done|].
  split; [destruct H as [[? ->]|[? ->]]; done|].
  split; [intros b a; destruct H as [[? ->]|[? ->]]; done|].
  reflexivity.
Qed.

(** ** Updating the board *)

Lemma isEmpty_empty board at_ point :
  getPosition at_ = Some point ->
  cell board (y point) (x point) = None ->
  isEmpty board at_ = Normal true.
Proof. unfold isEmpty. intros -> ->. reflexivity. Qed.

Lemma isEmpty_occupied board at_ :
  occupied board at_ -> isEmpty board at_ = Normal false.
Proof. unfold isEmpty. intros (point & q & -> & ->). reflexivity. Qed.

Lemma updateBoard_occupied symbol at_ on (h : Store) :
  occupied (h !!! on) at_ ->
  updateBoard symbol at_ on h = Normal (UpdateError (occupiedMessage at_), h).
Proof. unfold updateBoard. by intros ->%isEmpty_occupied. Qed.

Lemma updateBoard_empty symbol at_ on (h : Store) point :
  getPosition at_ = Some point ->
  cell (h !!! on) (y point) (x point) = None ->
  updateBoard symbol at_ on h =
    Normal (Updated on,
            <[on := setCell (h !!! on) (y point) (x point) (Some symbol)]> h).
Proof.
  intros Hpos Hcell. unfold updateBoard.
  by rewrite (isEmpty_empty _ _ _ Hpos Hcell), Hpos.
Qed.

Lemma updateBoard_NaN symbol on (h : Store) :
  updateBoard symbol NaN on h = Throw TypeError.
Proof. reflexivity. Qed.

(** C4, as stated, fails: X takes the empty space 5 of the caller's board
    [1]; the update succeeds, the returned board is the caller's own
    object, and the caller's board no longer has space 5 empty. *)
Lemma updateBoard_overwrites_caller_board :
  isEmpty (callerStore !!! 1%positive) (Int 5) = Normal true
  /\ exists h',
       updateBoard X (Int 5) 1%positive callerStore = Normal (Updated 1%positive, h')
       /\ cell (h' !!! 1%positive) C1 C1 = Some X
       /\ (h' !!! 1%positive : Board) <> callerStore !!! 1%positive.
Proof.
  split; [reflexivity|].
  eexists. split; [reflexivity|]. split; [reflexivity|].
  vm_compute. discriminate.
Qed.

(** C4, amended: for every board object and every empty space S,
    [updateBoard] succeeds and returns the very object it was given,
    updated in place: read through the caller's reference, the square at
    S's position now holds the mover's symbol, every other square is as
    before, and every other board of the store is untouched. *)
Theorem updateBoard_in_place symbol at_ on (h : Store) point :
  getPosition at_ = Some point ->
  cell (h !!! on) (y point) (x point) = None ->
  exists h',
    updateBoard symbol at_ on h = Normal (Updated on, h')
    /\ cell (h' !!! on) (y point) (x point) = Some symbol
    /\ (forall y' x', (y', x') <> (y point, x point) ->
                      cell (h' !!! on) y' x' = cell (h !!! on) y' x')
    /\ (forall l, l <> on -> h' !! l = h !! l).
Proof.
  intros Hpos Hcell. eexists. split; [by apply updateBoard_empty|].
  rewrite lookup_total_insert_eq. split; [apply cell_setCell_eq|]. split.
  - intros y' x' Hne. by apply cell_setCell_ne.
  - intros l Hl. by rewrite lookup_insert_ne.
Qed.

(** X takes space 5 of the empty board [1]. *)
Lemma updateBoard_in_place_witness :
  exists h',
    updateBoard X (Int 5) 1%positive callerStore = Normal (Updated 1%positive, h')
    /\ cell (h' !!! 1%positive) C1 C1 = Some X
    /\ (forall y' x', (y', x') <> (C1, C1) ->
                      cell (h' !!! 1%positive) y' x' = cell (callerStore !!! 1%positive) y' x')
    /\ (forall l, l <> 1%positive -> h' !! l = callerStore !! l).
Proof.
  apply (updateBoard_in_place X (Int 5) 1%positive callerStore (mkPosition C1 C1)).
  - reflexivity.
  - reflexivity.
Defined.

(** ** The placing loop *)

Lemma onAnswer_in_range z :
  1 <= z <= 9 -> onAnswer (Typed (Int z)) = ([], Resolves (Int z)).
Proof.
  intros Hz. unfold onAnswer, js_lt, js_gt.
  rewrite !bool_decide_eq_false_2 by lia. reflexivity.
Qed.

Lemma onAnswer_out_of_range z :
  z < 1 \/ z > 9 ->
  onAnswer (Typed (Int z)) = ([ConsoleError rangeMessage], Pending).
Proof.
  intros Hz. unfold onAnswer, js_lt, js_gt.
  destruct Hz; [rewrite (bool_decide_eq_true_2 (z < 1)) by done
               |rewrite (bool_decide_eq_true_2 (z > 9)) by done];
    by rewrite ?orb_true_r.
Qed.

Lemma onAnswer_positioned at_ :
  is_Some (getPosition at_) -> onAnswer (Typed at_) = ([], Resolves at_).
Proof.
  intros (z & -> & Hz)%getPosition_Some_range. by apply onAnswer_in_range.
Qed.

(** An out-of-range number ends the polling: the message is written, the
    promise of [getSelection] stays pending, the state and the store are as
    before, and the remaining lines are left unread. *)
Lemma pollSelection_out_of_range player on (h : Store) out z rest :
  z < 1 \/ z > 9 ->
  pollSelection player on h out (Typed (Int z) :: rest) =
    NeverSettles
      (mkMachine (Placing player on) h
         (out ++ [Question (selectQuery player); ConsoleError rangeMessage]))
      rest.
Proof.
  intros Hz. cbn [pollSelection getSelection].
  by rewrite (onAnswer_out_of_range z Hz).
Qed.

(** A selection of an occupied space is reported and the loop asks again,
    in the same state and with the same store. *)
Lemma pollSelection_occupied player on (h : Store) out at_ rest :
  occupied (h !!! on) at_ ->
  pollSelection player on h out (Typed at_ :: rest) =
    pollSelection player on h
      (out ++ [Question (selectQuery player); ConsoleError (occupiedMessage at_)])
      rest.
Proof.
  intros Hocc.
  assert (is_Some (getPosition at_)) as Hpos
    by (destruct Hocc as (point & q & -> & _); eauto).
  cbn [pollSelection getSelection].
  rewrite (onAnswer_positioned _ Hpos), (updateBoard_occupied _ _ _ _ Hocc).
  reflexivity.
Qed.

(** A selection of an empty space ends the call in the evaluating state. *)
Lemma pollSelection_empty player on (h : Store) out at_ point rest :
  getPosition at_ = Some point ->
  cell (h !!! on) (y point) (x point) = None ->
  pollSelection player on h out (Typed at_ :: rest) =
    Returned
      (mkMachine (Evaluating on player)
         (<[on := setCell (h !!! on) (y point) (x point) (Some player)]> h)
         (out ++ [Question (selectQuery player)]))
      rest.
Proof.
  intros Hpos Hcell. cbn [pollSelection getSelection].
  rewrite (onAnswer_positioned at_) by (rewrite Hpos; eauto).
  by rewrite (updateBoard_empty _ _ _ _ _ Hpos Hcell).
Qed.


(** C9: selecting a claimed space makes [updateBoard] return the
    occupied-space error and leaves the store as it was; in the placing
    state the engine writes the error and asks again, still in
    [Placing player on] with the same store, instead of moving to the
    evaluating state. *)
Theorem occupied_space_is_retried player at_ on (h : Store) out rest :
  occupied (h !!! on) at_ ->
  updateBoard player at_ on h = Normal (UpdateError (occupiedMessage at_), h)
  /\ pollSelection player on h out (Typed at_ :: rest)
     = pollSelection player on h
         (out ++ [Question (selectQuery player); ConsoleError (occupiedMessage at_)])
         rest
  /\ transition (mkMachine (Placing player on) h out) [Typed at_]
     = AwaitingInput
         (mkMachine (Placing player on) h
            ((out ++ printBoard (h !!! on))
             ++ [Question (selectQuery player); ConsoleError (occupiedMessage at_)]
             ++ [Question (selectQuery player)])).
Proof.
  intros Hocc. split; [by apply updateBoard_occupied|].
  split; [by apply pollSelection_occupied|].
  unfold transition. cbn [state heap console].
  rewrite pollSelection_occupied by done.
  cbn [pollSelection getSelection]. by rewrite <- app_assoc.
Qed.

(** X selects space 5, which O holds: X is asked again. *)
Lemma occupied_space_is_retried_witness :
  occupied centreTaken (Int 5)
  /\ transition (mkMachine (Placing X 1%positive) {[1%positive := centreTaken]} [])
       [Typed (Int 5)]
     = AwaitingInput
         (mkMachine (Placing X 1%positive) {[1%positive := centreTaken]}
            (([] ++ printBoard centreTaken)
             ++ [Question (selectQuery X); ConsoleError (occupiedMessage (Int 5))]
             ++ [Question (selectQuery X)])).
Proof.
  assert (occupied centreTaken (Int 5)) as Hocc.
  { exists (mkPosition C1 C1), O. split; reflexivity. }
  split; [exact Hocc|].
  exact (proj2 (proj2 (occupied_space_is_retried X (Int 5) 1%positive
                         {[1%positive := centreTaken]} [] [] Hocc))).
Defined.

(** ** The first call *)

(** In the initial state the call creates the board and goes on with the
    placing branch in the same call. *)
Lemma transition_initializing m lines :
  state m = Initializing ->
  transition m lines =
    transition (mkMachine (Placing X (newBoard (heap m)).1)
                          (newBoard (heap m)).2 (console m)) lines.
Proof. unfold transition. intros ->. reflexivity. Qed.

(** A first valid selection is consumed by that same call, which returns
    in the evaluating state with X's symbol on the new board. *)
Lemma transition_initializing_places m at_ point rest :
  state m = Initializing ->
  getPosition at_ = Some point ->
  transition m (Typed at_ :: rest) =
    Returned
      (mkMachine (Evaluating (fresh (dom (heap m))) X)
         (<[fresh (dom (heap m)) := setCell emptyBoard (y point) (x point) (Some X)]>
            (heap m))
         ((console m ++ printBoard emptyBoard) ++ [Question (selectQuery X)]))
      rest.
Proof.
  intros Hinit Hpos. rewrite transition_initializing by done.
  unfold transition, newBoard. cbn [state heap console fst snd].
  rewrite lookup_total_insert_eq.
  rewrite (pollSelection_empty _ _ _ _ _ point) by
    (rewrite ?lookup_total_insert_eq; by destruct point as [[] []]).
  by rewrite lookup_total_insert_eq, insert_insert_eq.
Qed.

(** C2: the first call of [transition], made in the initial state with the
    line 5 waiting, does not stop at [Placing X] on an empty board: it
    prints the board, asks X, consumes the line and returns in the
    evaluating state with X on space 5. *)
Theorem transition_initializing_runs_placing :
  transition initializeGame [Typed (Int 5)] =
    Returned
      (mkMachine (Evaluating 1%positive X)
         {[1%positive := ((None, None, None), (None, Some X, None), (None, None, None))]}
         (printBoard emptyBoard ++ [Question (selectQuery X)]))
      [].
Proof. vm_compute. reflexivity. Qed.

(** C3: in [Placing X] the selections 0 and 10 are reported, the state and
    the board stay as they were, but no further question is asked: the
    call never settles and the line that follows is left unread. *)
Theorem out_of_range_selection_never_settles :
  transition (mkMachine (Placing X 1%positive) callerStore [])
    [Typed (Int 0); Typed (Int 5)]
  = NeverSettles
      (mkMachine (Placing X 1%positive) callerStore
         (printBoard emptyBoard
          ++ [Question (selectQuery X); ConsoleError rangeMessage]))
      [Typed (Int 5)]
  /\ transition (mkMachine (Placing X 1%positive) callerStore [])
       [Typed (Int 10); Typed (Int 5)]
     = NeverSettles
         (mkMachine (Placing X 1%positive) callerStore
            (printBoard emptyBoard
             ++ [Question (selectQuery X); ConsoleError rangeMessage]))
         [Typed (Int 5)].
Proof. split; vm_compute; reflexivity. Qed.

(** ** Whole games *)

(** X takes the top row: the run ends with X as winner. *)
Example play_top_row :
  let o := play 20 initializeGame (selections [1; 4; 2; 5; 3]) in
  exited o = true /\ finalState o = Winner (Some X) 1%positive.
Proof. vm_compute. done. Qed.

(** Nine moves without a completed lane: the run ends in a draw. *)
Example play_draw :
  let o := play 30 initializeGame (selections [1; 2; 5; 3; 6; 4; 7; 9; 8]) in
  exited o = true /\ finalState o = Winner None 1%positive
  /\ heap (match o with Exited _ m _ => m | _ => initializeGame end) !! 1%positive
     = Some drawnBoard.
Proof. vm_compute. done. Qed.

(** X completes the anti-diagonal while space 1 is empty: the game goes
    on and O is asked to move. *)
Example play_anti_diagonal :
  let o := play 20 initializeGame (selections [5; 2; 3; 4; 7]) in
  exited o = false /\ finalState o = Placing O 1%positive
  /\ heap (match o with AwaitingInput m => m | _ => initializeGame end) !! 1%positive
     = Some antiDiagonalWin.
Proof. vm_compute. done. Qed.

(** The same with the top-left square claimed: the win is reported. *)
Example play_anti_diagonal_guarded :
  let o := play 20 initializeGame (selections [5; 1; 3; 4; 7]) in
  exited o = true /\ finalState o = Winner (Some X) 1%positive.
Proof. vm_compute. done. Qed.

(** ** Spaces and positions *)

(** X1: the numbering of the spaces is row-major: [getPosition] answers
    exactly on the integers 1..9, and space [z] is the square in row
    [(z - 1) / 3] and column [(z - 1) mod 3]. *)
Theorem getPosition_row_major from p :
  getPosition from = Some p <->
  exists z, from = Int z /\ 1 <= z <= 9
            /\ z = 3 * coordIndex (y p) + coordIndex (x p) + 1.
Proof.
  split.
  - intros Hp.
    destruct (proj1 (getPosition_Some_range from) (ex_intro _ p Hp))
      as (z & -> & Hz).
    exists z. split; [done|]. split; [done|].
    assert (z = 1 \/ z = 2 \/ z = 3 \/ z = 4 \/ z = 5 \/ z = 6 \/ z = 7
            \/ z = 8 \/ z = 9) as Hcases by lia.
    destruct Hcases as [->|[->|[->|[->|[->|[->|[->|[->| ->]]]]]]]];
      simpl in Hp; injection Hp as <-; reflexivity.
  - intros (z & -> & _ & ->). by destruct p as [[] []].
Qed.

(** ** The order of the scans *)

Lemma scan_first (line : Coord -> Square * Square * Square) s :
  forReturn (fun i => let '(a, b, c) := line i in
                      if threeInARow a b c then Some a else None) coords None = Some s
  <-> exists i, line i = (Some s, Some s, Some s)
                /\ forall j s', coordIndex j < coordIndex i ->
                                line j <> (Some s', Some s', Some s').
Proof.
  unfold coords. cbn [forReturn].
  destruct (line C0) as [[a0 b0] c0] eqn:L0.
  destruct (line C1) as [[a1 b1] c1] eqn:L1.
  destruct (line C2) as [[a2 b2] c2] eqn:L2.
  destruct (threeInARow a0 b0 c0) eqn:E0.
  { apply threeInARow_true in E0 as (s0 & -> & -> & ->). split.
    - intros [= <-]. exists C0. split; [done|].
      intros j s' Hj. destruct j; simpl in Hj; lia.
    - intros (i & Hi & Hfirst). destruct i; [congruence| |];
        exfalso; apply (Hfirst C0 s0); simpl; (lia || done). }
  assert (forall s', line C0 <> (Some s', Some s', Some s')) as N0.
  { intros s'. rewrite L0. intros [= -> -> ->].
    eapply threeInARow_false in E0. apply E0. eauto. }
  destruct (threeInARow a1 b1 c1) eqn:E1.
  { apply threeInARow_true in E1 as (s1 & -> & -> & ->). split.
    - intros [= <-]. exists C1. split; [done|].
      intros j s' Hj. destruct j; simpl in Hj; (lia || apply N0).
    - intros (i & Hi & Hfirst). destruct i; [by apply N0 in Hi|congruence|].
      exfalso; apply (Hfirst C1 s1); simpl; (lia || done). }
  assert (forall s', line C1 <> (Some s', Some s', Some s')) as N1.
  { intros s'. rewrite L1. intros [= -> -> ->].
    eapply threeInARow_false in E1. apply E1. eauto. }
  destruct (threeInARow a2 b2 c2) eqn:E2.
  { apply threeInARow_true in E2 as (s2 & -> & -> & ->). split.
    - intros [= <-]. exists C2. split; [done|].
      intros j s' Hj. destruct j; simpl in Hj; (lia || apply N0 || apply N1).
    - intros (i & Hi & Hfirst).
      destruct i; [by apply N0 in Hi|by apply N1 in Hi|congruence]. }
  split; [done|].
  intros (i & Hi & _). exfalso. destruct i.
  - by apply N0 in Hi.
  - by apply N1 in Hi.
  - rewrite L2 in Hi. injection Hi as -> -> ->.
    eapply threeInARow_false in E2. apply E2. eauto.
Qed.

Lemma rowOf_completed board i s :
  rowOf board i = (Some s, Some s, Some s) <-> completed board (RowLane i) s.
Proof.
  rewrite completed_row. unfold rowOf. split.
  - by intros [= -> -> ->].
  - by intros (-> & -> & ->).
Qed.

Lemma columnOf_completed board i s :
  columnOf board i = (Some s, Some s, Some s) <-> completed board (ColLane i) s.
Proof.
  rewrite completed_col. unfold columnOf. split.
  - by intros [= -> -> ->].
  - by intros (-> & -> & ->).
Qed.

(** X2: [hasWinnerHorizontal] returns the symbol of the first completed row,
    in the order 0, 1, 2: it returns [s] exactly when some row is
    completed by [s] and no row above it is completed by anybody. *)
Theorem hasWinnerHorizontal_first_row board s :
  hasWinnerHorizontal board = Some s <->
  exists i, completed board (RowLane i) s
            /\ forall j s', coordIndex j < coordIndex i ->
                            ~ completed board (RowLane j) s'.
Proof.
  unfold hasWinnerHorizontal. rewrite (scan_first (rowOf board) s). split.
  - intros (i & Hi & Hfirst). exists i. split; [by apply rowOf_completed|].
    intros j s' Hj Hc. by apply (Hfirst j s' Hj), rowOf_completed.
  - intros (i & Hi & Hfirst). exists i. split; [by apply rowOf_completed|].
    intros j s' Hj Hc. by apply (Hfirst j s' Hj), rowOf_completed.
Qed.

(** X3: [hasWinnerVertical] returns the symbol of the first completed column,
    in the order 0, 1, 2. *)
Theorem hasWinnerVertical_first_column board s :
  hasWinnerVertical board = Some s <->
  exists i, completed board (ColLane i) s
            /\ forall j s', coordIndex j < coordIndex i ->
                            ~ completed board (ColLane j) s'.
Proof.
  unfold hasWinnerVertical. rewrite (scan_first (columnOf board) s). split.
  - intros (i & Hi & Hfirst). exists i. split; [by apply columnOf_completed|].
    intros j s' Hj Hc. by apply (Hfirst j s' Hj), columnOf_completed.
  - intros (i & Hi & Hfirst). exists i. split; [by apply columnOf_completed|].
    intros j s' Hj Hc. by apply (Hfirst j s' Hj), columnOf_completed.
Qed.

(** A diagonal result comes from the main diagonal, or from the
    anti-diagonal under the guard on the top-left square. *)
Lemma hasWinnerDiagonal_Some_guard board s :
  hasWinnerDiagonal board = Some s ->
  completed board MainDiagonal s
  \/ (completed board AntiDiagonal s /\ cell board C0 C0 <> None).
Proof.
  rewrite completed_main, completed_anti. unfold hasWinnerDiagonal.
  case_squares board; simpl; intros [= <-]; auto.
Qed.

(** X4: [hasWinnerDiagonal] returns [s] exactly when [s] holds the main
    diagonal, or holds the anti-diagonal while the top-left square is
    claimed. *)
Theorem hasWinnerDiagonal_iff board s :
  hasWinnerDiagonal board = Some s <->
  completed board MainDiagonal s
  \/ (completed board AntiDiagonal s /\ cell board C0 C0 <> None).
Proof.
  split; [apply hasWinnerDiagonal_Some_guard|].
  intros [Hmain|[Hanti HtopL]].
  - by apply hasWinnerDiagonal_main.
  - by apply hasWinnerDiagonal_anti_guarded.
Qed.

(** ** Agreement of the scans *)

Lemma completed_col_cell board i s j :
  completed board (ColLane i) s -> cell board j i = Some s.
Proof. intros (H0 & H1 & H2)%completed_col. by destruct j. Qed.

Lemma completed_row_cell board i s j :
  completed board (RowLane i) s -> cell board i j = Some s.
Proof. intros (H0 & H1 & H2)%completed_row. by destruct j. Qed.

(** A diagonal result names the holder of the centre and of one square in
    every row and in every column. *)
Lemma hasWinnerDiagonal_crosses board s i :
  hasWinnerDiagonal board = Some s ->
  exists j, cell board i j = Some s /\ exists k, cell board k i = Some s.
Proof.
  intros [H|[H _]]%hasWinnerDiagonal_Some_guard.
  - apply completed_main in H as (H0 & H1 & H2).
    exists i. split; [by destruct i|]. exists i. by destruct i.
  - apply completed_anti in H as (H0 & H1 & H2).
    destruct i; [exists C2|exists C1|exists C0]; (split; [done|]);
      [exists C2|exists C1|exists C0]; done.
Qed.

(** X5: any two of the three scans that return a symbol return the same one,
    on every board: a column, a row and a diagonal always share a square. *)
Theorem scans_agree board s s' :
  (hasWinnerVertical board = Some s -> hasWinnerHorizontal board = Some s' -> s = s')
  /\ (hasWinnerVertical board = Some s -> hasWinnerDiagonal board = Some s' -> s = s')
  /\ (hasWinnerHorizontal board = Some s -> hasWinnerDiagonal board = Some s' -> s = s').
Proof.
  split; [|split].
  - intros [i Hi]%hasWinnerVertical_Some [j Hj]%hasWinnerHorizontal_Some.
    pose proof (completed_col_cell _ _ _ j Hi) as H1.
    pose proof (completed_row_cell _ _ _ i Hj) as H2. congruence.
  - intros [i Hi]%hasWinnerVertical_Some Hd.
    destruct (hasWinnerDiagonal_crosses _ _ i Hd) as (_ & _ & k & Hk).
    pose proof (completed_col_cell _ _ _ k Hi) as H1. congruence.
  - intros [i Hi]%hasWinnerHorizontal_Some Hd.
    destruct (hasWinnerDiagonal_crosses _ _ i Hd) as (j & Hj & _).
    pose proof (completed_row_cell _ _ _ j Hi) as H1. congruence.
Qed.

(** X holds column 0, row 0 and the main diagonal of this board. *)
Lemma scans_agree_witness :
  hasWinnerVertical ((Some X, Some X, Some X),
                     (Some X, Some X, Some O),
                     (Some X, Some O, Some X)) = Some X
  /\ hasWinnerHorizontal ((Some X, Some X, Some X),
                          (Some X, Some X, Some O),
                          (Some X, Some O, Some X)) = Some X
  /\ X = X.
Proof.
  split; [reflexivity|]. split; [reflexivity|].
  apply (proj1 (scans_agree ((Some X, Some X, Some X),
                             (Some X, Some X, Some O),
                             (Some X, Some O, Some X)) X X)); reflexivity.
Defined.

(** ** When a winner is declared *)

(** X6: [evaluate] declares a winner exactly when a reportable lane is
    completed: the declared winner holds such a lane, and every board with
    such a lane ends the game with a winner. *)
Theorem evaluate_declares_winner h board after :
  (forall s, evaluate h board after = Winner (Some s) board ->
             exists l, reportable (h !!! board) l /\ completed (h !!! board) l s)
  /\ ((exists l s, reportable (h !!! board) l /\ completed (h !!! board) l s) ->
      exists s', evaluate h board after = Winner (Some s') board).
Proof.
  split.
  - intros s. unfold evaluate.
    destruct (hasWinnerVertical (h !!! board)) as [v|] eqn:Ev; simpl.
    { intros [= ->]. apply hasWinnerVertical_Some in Ev as [i Hi].
      exists (ColLane i). split; [by left|done]. }
    destruct (hasWinnerHorizontal (h !!! board)) as [w|] eqn:Eh; simpl.
    { intros [= ->]. apply hasWinnerHorizontal_Some in Eh as [i Hi].
      exists (RowLane i). split; [by left|done]. }
    destruct (hasWinnerDiagonal (h !!! board)) as [d|] eqn:Ed; simpl.
    { intros [= ->]. apply hasWinnerDiagonal_Some_guard in Ed as [Hd|[Hd HtopL]].
      - exists MainDiagonal. split; [by left|done].
      - exists AntiDiagonal. split; [by right|done]. }
    by destruct (isBoardFull (h !!! board)).
  - intros (l & s & Hrep & Hl). unfold evaluate.
    destruct (hasWinnerVertical (h !!! board)) as [v|] eqn:Ev; simpl; [eauto|].
    destruct (hasWinnerHorizontal (h !!! board)) as [w|] eqn:Eh; simpl; [eauto|].
    destruct (hasWinnerDiagonal (h !!! board)) as [d|] eqn:Ed; simpl; [eauto|].
    exfalso. destruct l as [i|i| |].
    + by eapply hasWinnerHorizontal_None in Eh.
    + by eapply hasWinnerVertical_None in Ev.
    + apply hasWinnerDiagonal_main in Hl. congruence.
    + destruct Hrep as [?|HtopL]; [done|].
      apply hasWinnerDiagonal_anti_guarded in Hl; [congruence|done].
Qed.

(** On [twoColumns] column 0 is a reportable lane of X. *)
Lemma evaluate_declares_winner_witness :
  exists s', evaluate {[2%positive := twoColumns]} 2%positive O
             = Winner (Some s') 2%positive.
Proof.
  apply (proj2 (evaluate_declares_winner {[2%positive := twoColumns]} 2%positive O)).
  exists (ColLane C0), X. split; [by left|].
  apply completed_col. done.
Defined.

(** ** Full boards and empty spaces *)

Lemma getPosition_of_coords y0 x0 :
  getPosition (Int (3 * coordIndex y0 + coordIndex x0 + 1))
  = Some (mkPosition y0 x0).
Proof. by destruct y0, x0. Qed.

(** X7: [isBoardFull] holds exactly when [isEmpty] is false at every space
    1..9. *)
Theorem isBoardFull_no_empty_space board :
  isBoardFull board = true <->
  forall z, 1 <= z <= 9 -> isEmpty board (Int z) = Normal false.
Proof.
  rewrite isBoardFull_cells. split.
  - intros Hfull z Hz.
    destruct (proj2 (getPosition_Some_range (Int z))) as [p Hp]; [eauto|].
    unfold isEmpty. rewrite Hp.
    by rewrite bool_decide_eq_false_2 by apply Hfull.
  - intros Hnone y0 x0 Hcell.
    specialize (Hnone (3 * coordIndex y0 + coordIndex x0 + 1)).
    unfold isEmpty in Hnone. rewrite getPosition_of_coords in Hnone.
    simpl in Hnone. rewrite Hcell in Hnone.
    assert (1 <= 3 * coordIndex y0 + coordIndex x0 + 1 <= 9) as Hz
      by (destruct y0, x0; simpl; lia).
    specialize (Hnone Hz). done.
Qed.


(** ** What an update does to the board *)

(** The cases of [updateBoard]. *)
Lemma updateBoard_cases symbol at_ on (h : Store) :
  (getPosition at_ = None /\ updateBoard symbol at_ on h = Throw TypeError)
  \/ (occupied (h !!! on) at_
      /\ updateBoard symbol at_ on h = Normal (UpdateError (occupiedMessage at_), h))
  \/ (exists point,
        getPosition at_ = Some point
        /\ cell (h !!! on) (y point) (x point) = None
        /\ updateBoard symbol at_ on h =
             Normal (Updated on,
                     <[on := setCell (h !!! on) (y point) (x point) (Some symbol)]> h)).
Proof.
  destruct (getPosition at_) as [point|] eqn:Hpos.
  - destruct (cell (h !!! on) (y point) (x point)) as [q|] eqn:Hcell.
    + right. left.
      assert (occupied (h !!! on) at_) as Hocc by (exists point, q; done).
      split; [done|]. by apply updateBoard_occupied.
    + right. right. exists point. split; [done|]. split; [done|].
      by apply updateBoard_empty.
  - left. split; [done|]. unfold updateBoard, isEmpty. by rewrite Hpos.
Qed.

(** X8: the three ways [updateBoard] can end: a number that is no space
    throws [TypeError]; a claimed space gives the error value and the
    store as it was; an empty space gives the same board object with the
    symbol written into that square. *)
Theorem updateBoard_outcomes symbol at_ on (h : Store) :
  (getPosition at_ = None /\ updateBoard symbol at_ on h = Throw TypeError)
  \/ (occupied (h !!! on) at_
      /\ updateBoard symbol at_ on h = Normal (UpdateError (occupiedMessage at_), h))
  \/ (exists point,
        getPosition at_ = Some point
        /\ cell (h !!! on) (y point) (x point) = None
        /\ updateBoard symbol at_ on h =
             Normal (Updated on,
                     <[on := setCell (h !!! on) (y point) (x point) (Some symbol)]> h)).
Proof. apply updateBoard_cases. Qed.

Lemma updateBoard_Updated_inv symbol at_ on (h h' : Store) u :
  updateBoard symbol at_ on h = Normal (Updated u, h') ->
  u = on /\ exists point,
    getPosition at_ = Some point
    /\ cell (h !!! on) (y point) (x point) = None
    /\ h' = <[on := setCell (h !!! on) (y point) (x point) (Some symbol)]> h.
Proof.
  intros Hupd.
  destruct (updateBoard_cases symbol at_ on h)
    as [[_ E]|[[_ E]|(point & Hpos & Hcell & E)]];
    rewrite E in Hupd; try done.
  injection Hupd as <- <-. eauto.
Qed.

(** X9: a space is claimed once: after a successful update the space is
    occupied, and every further update of it, for either player, gives
    the occupied-space error and changes nothing. *)
Theorem updateBoard_claims_once symbol at_ on (h h' : Store) u :
  updateBoard symbol at_ on h = Normal (Updated u, h') ->
  isEmpty (h' !!! on) at_ = Normal false
  /\ forall symbol',
       updateBoard symbol' at_ on h' = Normal (UpdateError (occupiedMessage at_), h').
Proof.
  intros (-> & point & Hpos & Hcell & ->)%updateBoard_Updated_inv.
  assert (occupied (<[on := setCell (h !!! on) (y point) (x point) (Some symbol)]> h
                    !!! on) at_) as Hocc.
  { exists point, symbol. split; [done|].
    rewrite lookup_total_insert_eq. apply cell_setCell_eq. }
  split; [by apply isEmpty_occupied|].
  intros symbol'. by apply updateBoard_occupied.
Qed.

(** X takes space 5 of the empty board; O cannot take it afterwards. *)
Lemma updateBoard_claims_once_witness :
  updateBoard O (Int 5) 1%positive
    {[1%positive := setCell emptyBoard C1 C1 (Some X)]}
  = Normal (UpdateError (occupiedMessage (Int 5)),
            {[1%positive := setCell emptyBoard C1 C1 (Some X)]}).
Proof.
  apply (updateBoard_claims_once X (Int 5) 1%positive callerStore
           {[1%positive := setCell emptyBoard C1 C1 (Some X)]} 1%positive).
  reflexivity.
Defined.

Lemma filter_insert_length {A} (P : A -> Prop) `{forall a, Decision (P a)}
    (l : list A) (k : nat) (u v : A) :
  l !! k = Some u -> ~ P u ->
  length (filter P (<[k := v]> l))
  = (length (filter P l) + (if decide (P v) then 1 else 0))%nat.
Proof.
  revert k. induction l as [|a l IH]; intros k Hk Hu; [done|].
  destruct k as [|k]; simpl in Hk.
  - injection Hk as ->. simpl. rewrite !filter_cons.
    destruct (decide (P v)), (decide (P u)); simpl; try done; lia.
  - simpl. rewrite !filter_cons. specialize (IH k Hk Hu).
    destruct (decide (P a)); simpl; lia.
Qed.

Lemma flat_setCell board y0 x0 v :
  flat (setCell board y0 x0 v)
  = <[Z.to_nat (3 * coordIndex y0 + coordIndex x0) := v]> (flat board).
Proof.
  destruct board as [[[[a0 a1] a2] [[b0 b1] b2]] [[c0 c1] c2]].
  by destruct y0, x0.
Qed.

Lemma flat_lookup board y0 x0 :
  flat board !! Z.to_nat (3 * coordIndex y0 + coordIndex x0)
  = Some (cell board y0 x0).
Proof.
  destruct board as [[[[a0 a1] a2] [[b0 b1] b2]] [[c0 c1] c2]].
  by destruct y0, x0.
Qed.

Lemma countOf_setCell board y0 x0 s s' :
  cell board y0 x0 = None ->
  countOf s' (setCell board y0 x0 (Some s))
  = (countOf s' board + (if bool_decide (s = s') then 1 else 0))%nat.
Proof.
  intros Hcell. unfold countOf. rewrite flat_setCell.
  rewrite (filter_insert_length (fun sq : Square => sq = Some s') (flat board)
             (Z.to_nat (3 * coordIndex y0 + coordIndex x0)) None (Some s)).
  - cbv beta. case_decide as Hd.
    + injection Hd as ->. by rewrite bool_decide_eq_true_2.
    + rewrite bool_decide_eq_false_2; [done|congruence].
  - by rewrite flat_lookup, Hcell.
  - done.
Qed.

Lemma claimedCount_setCell board y0 x0 s :
  cell board y0 x0 = None ->
  claimedCount (setCell board y0 x0 (Some s)) = S (claimedCount board).
Proof.
  intros Hcell. unfold claimedCount. rewrite flat_setCell.
  rewrite (filter_insert_length (fun sq : Square => is_Some sq) (flat board)
             (Z.to_nat (3 * coordIndex y0 + coordIndex x0)) None (Some s)).
  - cbv beta. case_decide as Hd; [lia|]. destruct Hd. eauto.
  - by rewrite flat_lookup, Hcell.
  - by intros [? ?].
Qed.

(** X10: a successful update never touches a claimed square: every square
    that held a symbol still holds it, the number of claimed squares
    grows by one, the mover holds one square more and the opponent as
    many as before. *)
Theorem updateBoard_keeps_claimed symbol at_ on (h h' : Store) u :
  updateBoard symbol at_ on h = Normal (Updated u, h') ->
  (forall y' x' q, cell (h !!! on) y' x' = Some q -> cell (h' !!! on) y' x' = Some q)
  /\ claimedCount (h' !!! on) = S (claimedCount (h !!! on))
  /\ countOf symbol (h' !!! on) = S (countOf symbol (h !!! on))
  /\ countOf (opponent symbol) (h' !!! on) = countOf (opponent symbol) (h !!! on).
Proof.
  intros (-> & point & Hpos & Hcell & ->)%updateBoard_Updated_inv.
  rewrite lookup_total_insert_eq. split; [|split; [|split]].
  - intros y' x' q Hq. rewrite cell_setCell_ne; [done|].
    intros [= -> ->]. congruence.
  - by apply claimedCount_setCell.
  - rewrite countOf_setCell by done. rewrite bool_decide_eq_true_2 by done. lia.
  - rewrite countOf_setCell by done.
    rewrite bool_decide_eq_false_2 by (by destruct symbol). lia.
Qed.

(** X takes space 1 of [centreTaken]: the centre stays with O. *)
Lemma updateBoard_keeps_claimed_witness :
  cell (({[1%positive := setCell centreTaken C0 C0 (Some X)]} : Store) !!! 1%positive)
       C1 C1 = Some O.
Proof.
  apply (updateBoard_keeps_claimed X (Int 1) 1%positive
           {[1%positive := centreTaken]}
           {[1%positive := setCell centreTaken C0 C0 (Some X)]} 1%positive).
  - reflexivity.
  - reflexivity.
Defined.

(** ** What a typed line does *)

(** X11: [getSelection] resolves only with the number that was typed, and
    exactly when that number is an integer 1..9 or [NaN]: [NaN] is neither
    below 1 nor above 9.  It stays pending on an empty line, silently, and
    on an integer outside 1..9, after the range message. *)
Theorem getSelection_settles player input out :
  (forall n,
     getSelection player (Some input) = (out, Resolves n) <->
     input = Typed n /\ out = [Question (selectQuery player)]
     /\ (n = NaN \/ exists z, n = Int z /\ 1 <= z <= 9))
  /\ (getSelection player (Some input) = (out, Pending) <->
      (input = Blank /\ out = [Question (selectQuery player)])
      \/ exists z, input = Typed (Int z) /\ (z < 1 \/ z > 9)
                   /\ out = [Question (selectQuery player);
                             ConsoleError rangeMessage]).
Proof.
  unfold getSelection. destruct input as [|[|z]].
  - simpl. split.
    + intros n. split; [done|]. by intros ([=] & _).
    + split.
      * intros [= <-]. by left.
      * intros [[_ ->]|(z & [=] & _)]. done.
  - simpl. split.
    + intros n. split.
      * intros [= <- <-]. eauto.
      * intros ([= <-] & -> & _). done.
    + split; [done|]. intros [[[=] _]|(z & [=] & _)].
  - destruct (decide (1 <= z <= 9)) as [Hz|Hz].
    + rewrite (onAnswer_in_range z Hz). split.
      * intros n. split.
        -- intros [= <- <-]. eauto 10.
        -- intros ([= <-] & -> & _). done.
      * split; [done|]. intros [[[=] _]|(z' & [= <-] & Hz' & _)]. lia.
    + assert (z < 1 \/ z > 9) as Hz' by lia.
      rewrite (onAnswer_out_of_range z Hz'). split.
      * intros n. split; [done|].
        intros ([= <-] & _ & [[=]|(z' & [= <-] & Hz'')]). lia.
      * split.
        -- intros [= <-]. right. eauto.
        -- intros [[[=] _]|(z' & [= <-] & _ & ->)]. done.
Qed.

(** X12: a line that is no number ends the placing call abnormally, in the
    same state and with the same store, and the lines after it are not
    read: on an empty line the call never settles and nothing is written
    after the question; text that is no number is resolved as [NaN] and
    the call is rejected with [TypeError]. *)
Theorem placing_call_on_no_number player on (h : Store) out rest :
  transition (mkMachine (Placing player on) h out) (Blank :: rest)
  = NeverSettles
      (mkMachine (Placing player on) h
         ((out ++ printBoard (h !!! on)) ++ [Question (selectQuery player)]))
      rest
  /\ transition (mkMachine (Placing player on) h out) (Typed NaN :: rest)
     = Rejected TypeError
         (mkMachine (Placing player on) h
            ((out ++ printBoard (h !!! on)) ++ [Question (selectQuery player)]))
         rest.
Proof. split; reflexivity. Qed.

(** The four ways the placing loop can end. *)
Lemma pollSelection_outcome player on (h : Store) lines :
  forall out,
    (exists point out' rest,
       cell (h !!! on) (y point) (x point) = None
       /\ pollSelection player on h out lines
          = Returned
              (mkMachine (Evaluating on player)
                 (<[on := setCell (h !!! on) (y point) (x point) (Some player)]> h)
                 out') rest)
    \/ (exists out',
          pollSelection player on h out lines
          = AwaitingInput (mkMachine (Placing player on) h out'))
    \/ (exists out' rest,
          pollSelection player on h out lines
          = NeverSettles (mkMachine (Placing player on) h out') rest)
    \/ (exists out' rest,
          pollSelection player on h out lines
          = Rejected TypeError (mkMachine (Placing player on) h out') rest).
Proof.
  induction lines as [|input lines IH]; intros out.
  { right. left. eexists. reflexivity. }
  destruct input as [|[|z]].
  - right. right. left. do 2 eexists. reflexivity.
  - right. right. right. do 2 eexists. reflexivity.
  - destruct (decide (1 <= z <= 9)) as [Hz|Hz].
    + destruct (updateBoard_cases player (Int z) on h)
        as [[_ E]|[[Hocc E]|(point & Hpos & Hcell & E)]].
      * right. right. right. do 2 eexists.
        cbn [pollSelection getSelection].
        rewrite (onAnswer_in_range z Hz), E. reflexivity.
      * rewrite pollSelection_occupied by done. apply IH.
      * left. exists point. do 2 eexists. split; [done|].
        by apply pollSelection_empty.
    + right. right. left. do 2 eexists.
      apply pollSelection_out_of_range. lia.
Qed.

(** X13: a placing call that returns has placed exactly one symbol: it ends in
    the evaluating state of the same player on the same board object, and
    the store differs from the one before only in one square of that
    board, which was empty and now holds the player's symbol.  A placing
    call that does not return leaves the state and the store as they were
    and never exits the process. *)
Theorem placing_call_outcome player on (h : Store) out lines :
  (exists point m' rest,
     transition (mkMachine (Placing player on) h out) lines = Returned m' rest
     /\ state m' = Evaluating on player
     /\ cell (h !!! on) (y point) (x point) = None
     /\ heap m' = <[on := setCell (h !!! on) (y point) (x point) (Some player)]> h)
  \/ ((forall m' rest,
         transition (mkMachine (Placing player on) h out) lines <> Returned m' rest)
      /\ exited (transition (mkMachine (Placing player on) h out) lines) = false
      /\ finalMachine (transition (mkMachine (Placing player on) h out) lines)
         = mkMachine (Placing player on) h
             (console (finalMachine
                         (transition (mkMachine (Placing player on) h out) lines)))).
Proof.
  unfold transition. cbn [state heap console].
  destruct (pollSelection_outcome player on h lines (out ++ printBoard (h !!! on)))
    as [(point & out' & rest & Hcell & ->)
       |[(out' & ->)|[(out' & rest & ->)|(out' & rest & ->)]]].
  - left. exists point. do 2 eexists. done.
  - right. done.
  - right. done.
  - right. done.
Qed.


(** ** Invariants of a game *)

(** Where a call of [transition] leaves the state and the store. *)
Lemma transition_final_placing player on (h : Store) out lines :
  (state (finalMachine (transition (mkMachine (Placing player on) h out) lines))
   = Placing player on
   /\ heap (finalMachine (transition (mkMachine (Placing player on) h out) lines)) = h)
  \/ (exists point,
        cell (h !!! on) (y point) (x point) = None
        /\ state (finalMachine (transition (mkMachine (Placing player on) h out) lines))
           = Evaluating on player
        /\ heap (finalMachine (transition (mkMachine (Placing player on) h out) lines))
           = <[on := setCell (h !!! on) (y point) (x point) (Some player)]> h).
Proof.
  unfold transition. cbn [state heap console].
  destruct (pollSelection_outcome player on h lines (out ++ printBoard (h !!! on)))
    as [(point & out' & rest & Hcell & ->)
       |[(out' & ->)|[(out' & rest & ->)|(out' & rest & ->)]]];
    simpl; eauto.
Qed.

Lemma evaluate_cases h board after :
  (exists s l, evaluate h board after = Winner (Some s) board
               /\ completed (h !!! board) l s)
  \/ (evaluate h board after = Winner None board
      /\ isBoardFull (h !!! board) = true)
  \/ (evaluate h board after = Placing (opponent after) board
      /\ isBoardFull (h !!! board) = false).
Proof.
  unfold evaluate.
  destruct (hasWinnerVertical (h !!! board)) as [v|] eqn:Ev; simpl.
  { left. apply hasWinnerVertical_Some in Ev as [i Hi]. eauto. }
  destruct (hasWinnerHorizontal (h !!! board)) as [w|] eqn:Eh; simpl.
  { left. apply hasWinnerHorizontal_Some in Eh as [i Hi]. eauto. }
  destruct (hasWinnerDiagonal (h !!! board)) as [d|] eqn:Ed; simpl.
  { left. apply hasWinnerDiagonal_Some in Ed as [Hd|Hd]; eauto. }
  destruct (isBoardFull (h !!! board)); [right; left|right; right]; done.
Qed.

Lemma terminate_final won on m rest :
  terminate won on m rest
  = Exited 0 (mkMachine (state m) (heap m)
                ((console m ++ printBoard (heap m !!! on))
                 ++ [ConsoleLog (announcement won)])) rest.
Proof. by destruct won as [[]|]. Qed.


Lemma play_invariant (I : Machine -> Prop) :
  (forall m lines, I m -> I (finalMachine (transition m lines))) ->
  forall fuel m lines, I m -> I (finalMachine (play fuel m lines)).
Proof.
  intros Hstep. induction fuel as [|fuel IH]; intros m lines Hm; [done|].
  simpl. specialize (Hstep m lines Hm).
  destruct (transition m lines) as [m1 rest| | | |]; try done.
  by apply IH.
Qed.

Lemma balanced_placing player on (h : Store) out lines :
  balanced (mkMachine (Placing player on) h out) ->
  balanced (finalMachine (transition (mkMachine (Placing player on) h out) lines)).
Proof.
  unfold balanced at 1. cbn [state heap]. intros Hb.
  destruct (transition_final_placing player on h out lines)
    as [[Hs Hh]|(point & Hcell & Hs & Hh)];
    unfold balanced; rewrite Hs, Hh; [done|].
  rewrite lookup_total_insert_eq, !countOf_setCell by done.
  destruct player; simpl in *; lia.
Qed.

Lemma balanced_transition m lines :
  balanced m -> balanced (finalMachine (transition m lines)).
Proof.
  destruct m as [[|p on|b a|won on] h out]; intros Hb.
  - rewrite transition_initializing by done. apply balanced_placing.
    unfold balanced, newBoard. cbn [state heap fst snd].
    by rewrite lookup_total_insert_eq.
  - by apply balanced_placing.
  - unfold transition, balanced in *. cbn [state heap console finalMachine] in *.
    destruct (evaluate_cases h b a) as [(s & l & -> & _)|[[-> _]|[-> _]]].
    + destruct a; simpl in Hb; lia.
    + destruct a; simpl in Hb; lia.
    + destruct a; simpl in *; lia.
  - unfold transition. cbn [state heap console]. by rewrite terminate_final.
Qed.

(** X15: the players alternate, X first: if the symbols on the board are in
    balance for the state of the machine, they still are after any number
    of calls of [transition] on any input. *)
Theorem play_keeps_balance fuel m lines :
  balanced m -> balanced (finalMachine (play fuel m lines)).
Proof. apply play_invariant. apply balanced_transition. Qed.

(** A game from the initial state, stopped after three moves. *)
Lemma play_keeps_balance_witness :
  balanced (finalMachine (play 20 initializeGame (selections [5; 2; 3]))).
Proof.
  apply (play_keeps_balance 20 initializeGame (selections [5; 2; 3])).
  exact I.
Defined.







(** X18: once a board is in play the game stays on it: after any number of
    calls the state still refers to the same board object (so the machine
    is never back in its initial state), and no other object of the store
    has been written. *)
Theorem play_same_board fuel m lines on :
  boardOf (state m) = Some on ->
  boardOf (state (finalMachine (play fuel m lines))) = Some on
  /\ forall l, l <> on -> heap (finalMachine (play fuel m lines)) !! l = heap m !! l.
Proof.
  intros Hon.
  apply (play_invariant
           (fun m' => boardOf (state m') = Some on
                      /\ forall l, l <> on -> heap m' !! l = heap m !! l));
    [|done].
  clear. intros [[|p b|b a|won b] h out] lines' [[= ->] Hframe];
    cbn [heap] in Hframe.
  - destruct (transition_final_placing p on h out lines')
      as [[-> ->]|(point & _ & -> & ->)]; [done|].
    split; [done|]. intros l Hl. rewrite lookup_insert_ne by done. by apply Hframe.
  - unfold transition. cbn [state heap console finalMachine].
    by destruct (evaluate_cases h on a) as [(s & l & -> & _)|[[-> _]|[-> _]]].
  - unfold transition. cbn [state heap console]. by rewrite terminate_final.
Qed.

(** After X:5 on board [1], three more moves are made on board [1]. *)
Lemma play_same_board_witness :
  boardOf (state (finalMachine
                    (play 20 (mkMachine (Evaluating 1%positive X)
                                {[1%positive := setCell emptyBoard C1 C1 (Some X)]} [])
                       (selections [2; 3; 4]))))
  = Some 1%positive.
Proof.
  apply (play_same_board 20
           (mkMachine (Evaluating 1%positive X)
              {[1%positive := setCell emptyBoard C1 C1 (Some X)]} [])
           (selections [2; 3; 4]) 1%positive).
  reflexivity.
Defined.

(** ** What the players see *)

Lemma displayBoard_spacesNumbered board :
  displayBoard board =
  let sp (k : nat) := default "undefined" (spacesNumbered board !! k) in
  sp 0%nat +:+ " | " +:+ sp 1%nat +:+ " | " +:+ sp 2%nat +:+ " " +:+ nl
  +:+ "---------" +:+ nl
  +:+ sp 3%nat +:+ " | " +:+ sp 4%nat +:+ " | " +:+ sp 5%nat +:+ " " +:+ nl
  +:+ "---------" +:+ nl
  +:+ sp 6%nat +:+ " | " +:+ sp 7%nat +:+ " | " +:+ sp 8%nat +:+ " " +:+ nl.
Proof. reflexivity. Qed.


